(** * Derived fields of the lending-protocol GraphQL gateway

    A shallow embedding of [src/index-testing.ts]: the decimal value the
    derived fields compute with, the untyped objects the resolvers receive,
    the derived-field functions, the fragments and the schema extension they
    are registered under, the operation split between the two upstream
    channels and the header filter of the server. *)

From Stdlib Require Import ZArith List String Ascii Bool Lia.
From stdpp Require Import base option strings gmap.
Import ListNotations.

Local Open Scope string_scope.
Local Open Scope Z_scope.

Set Warnings "-register-all".

(** ** Decimal value *)

(** Modelled from the spec: the arbitrary-precision decimal of the external
    module ['bigdecimal'] (section 4.2).  A value is an unscaled integer and
    a scale, [unscaled * 10^-scale]; [add], [subtract] and [multiply] are
    exact; [divide] takes the scale of the quotient, truncates toward zero
    (ROUND_DOWN) and fails on a zero divisor; [parse] fails on a string that
    is not a decimal numeral. *)
Module Dec.

Record t : Type := mk { unscaled : Z; scale : nat }.

Definition zero : t := mk 0 0.

Definition pow10 (n : nat) : Z := 10 ^ Z.of_nat n.

(** The unscaled integer of [d] once written at scale [s >= scale d]. *)
Definition rescale (s : nat) (d : t) : Z :=
  unscaled d * pow10 (s - scale d).

Definition add (a b : t) : t :=
  let s := Nat.max (scale a) (scale b) in
  mk (rescale s a + rescale s b) s.

Definition negate (a : t) : t := mk (- unscaled a) (scale a).

Definition subtract (a b : t) : t :=
  let s := Nat.max (scale a) (scale b) in
  mk (rescale s a - rescale s b) s.

Definition multiply (a b : t) : t :=
  mk (unscaled a * unscaled b) (scale a + scale b).

Definition is_zero (a : t) : bool := unscaled a =? 0.

(** Equality by value: [1.0] and [1] are equal. *)
Definition eqv (a b : t) : bool :=
  let s := Nat.max (scale a) (scale b) in
  rescale s a =? rescale s b.

(** [a / b] with [s] fractional digits, rounded down; [None] when [b] is
    zero. *)
Definition divide (a b : t) (s : nat) : option t :=
  if is_zero b then None
  else Some (mk (Z.quot (unscaled a * pow10 (s + scale b))
                        (unscaled b * pow10 (scale a))) s).

Definition digit_of (c : ascii) : option Z :=
  let n := nat_of_ascii c in
  if (48 <=? n)%nat && (n <=? 57)%nat then Some (Z.of_nat (n - 48)) else None.

(** Digits with at most one point among them; [seen] tells that a digit
    was read, [dot] that the point was. *)
Fixpoint parse_digits (s : string) (acc : Z) (sc : nat) (dot seen : bool)
  : option t :=
  match s with
  | EmptyString => if seen then Some (mk acc sc) else None
  | String c rest =>
      match digit_of c with
      | Some d =>
          parse_digits rest (10 * acc + d) (if dot then S sc else sc) dot true
      | None =>
          if Ascii.eqb c "."%char && negb dot
          then parse_digits rest acc sc true seen
          else None
      end
  end.

Definition parse (s : string) : option t :=
  match s with
  | String "-"%char rest => negate <$> parse_digits rest 0 0 false false
  | String "+"%char rest => parse_digits rest 0 0 false false
  | _ => parse_digits s 0 0 false false
  end.

Definition digit_char (d : Z) : ascii := ascii_of_nat (48 + Z.to_nat d).

(** The last [n] decimal digits of [z], most significant first. *)
Fixpoint low_digits (n : nat) (z : Z) (acc : string) : string :=
  match n with
  | O => acc
  | S n' => low_digits n' (z / 10) (String (digit_char (z mod 10)) acc)
  end.

(** The decimal digits of [z >= 0], at least one. *)
Fixpoint int_digits (fuel : nat) (z : Z) (acc : string) : string :=
  match fuel with
  | O => acc
  | S fuel' =>
      let acc' := String (digit_char (z mod 10)) acc in
      if z / 10 =? 0 then acc' else int_digits fuel' (z / 10) acc'
  end.

Definition toString (d : t) : string :=
  let m := Z.abs (unscaled d) in
  let p := pow10 (scale d) in
  let int_part := int_digits (S (Z.to_nat (Z.log2 (m / p)))) (m / p) "" in
  let sign := if unscaled d <? 0 then "-" else "" in
  match scale d with
  | O => (sign ++ int_part)%string
  | S _ =>
      (sign ++ int_part ++ "." ++ low_digits (scale d) (m mod p) "")%string
  end.

End Dec.

(** ** Values and effects of the resolvers *)

(** A [bigDecimal] object: the identity [new] gave it and its value. *)
Record bigDecimal : Type := Obj { ref : nat; val : Dec.t }.

(** What a resolver argument of type [any] can hold. *)
Inductive jsval : Type :=
| JUndefined
| JNull
| JBool (b : bool)
| JStr (s : string)
| JDec (d : bigDecimal)
| JArr (items : list jsval)
| JObj (fields : list (string * jsval)).

Inductive error : Type := InvalidDecimal | DivisionByZero | TypeError.

Inductive result (A : Type) : Type :=
| Ok (a : A)
| Throw (e : error).
Arguments Ok {A} a.
Arguments Throw {A} e.

Inductive method : Type :=
| Multiply
| Divide (scale : nat)
| Plus
| Add
| Subtract.

(** One call [receiver.callee(operand)] of a [bigDecimal] method. *)
Record call : Type :=
  Call { callee : method; receiver : bigDecimal; operand : jsval }.

(** The state a computation threads: the identity of the next object and the
    method calls made so far, oldest first. *)
Record store : Type := Store { next_ref : nat; calls : list call }.

Definition M (A : Type) : Type := store -> result A * store.

Definition ret {A} (a : A) : M A := fun st => (Ok a, st).

Definition throw {A} (e : error) : M A := fun st => (Throw e, st).

Definition bind {A B} (c : M A) (k : A -> M B) : M B :=
  fun st =>
    match c st with
    | (Ok a, st') => k a st'
    | (Throw e, st') => (Throw e, st')
    end.

Notation "x <- c ;; k" := (bind c (fun x => k))
  (at level 100, c at next level, right associativity).

(** [new bigDecimal(...)]: a fresh object. *)
Definition alloc (d : Dec.t) : M bigDecimal :=
  fun st => (Ok (Obj (next_ref st) d), Store (S (next_ref st)) (calls st)).

Definition log (c : call) : M unit :=
  fun st => (Ok tt, Store (next_ref st) (calls st ++ [c])).

Definition lift {A} (e : error) (o : option A) : M A :=
  match o with
  | Some a => ret a
  | None => throw e
  end.

(** The calls a computation adds when run from [st]. *)
Definition calls_of {A} (c : M A) (st : store) : list call :=
  drop (length (calls st)) (calls (snd (c st))).

Definition store0 : store := Store 0 [].

Fixpoint lookup_field (k : string) (fields : list (string * jsval)) : jsval :=
  match fields with
  | [] => JUndefined
  | (k', v) :: rest => if String.eqb k k' then v else lookup_field k rest
  end.

(** [o.k]: a missing property is [undefined]; reading a property of
    [undefined] or [null] throws. *)
Definition get (o : jsval) (k : string) : M jsval :=
  match o with
  | JObj fields => ret (lookup_field k fields)
  | JUndefined | JNull => throw TypeError
  | _ => ret JUndefined
  end.

(** ToBoolean, as [!v] and [if (v)] apply it. *)
Definition truthy (v : jsval) : bool :=
  match v with
  | JUndefined | JNull => false
  | JBool b => b
  | JStr s => negb (String.eqb s "")
  | JDec _ | JArr _ | JObj _ => true
  end.

(** [a == b] on two objects: the same object. *)
Definition loose_eq (a b : bigDecimal) : bool := Nat.eqb (ref a) (ref b).

Fixpoint foldM {A B} (f : A -> B -> M A) (l : list B) (acc : A) : M A :=
  match l with
  | [] => ret acc
  | x :: rest => acc' <- f acc x ;; foldM f rest acc'
  end.

(** [v.reduce(f, init)]: the receiver is looked at before [init] is
    evaluated, and only an array has the method. *)
Definition reduce {A} (v : jsval) (f : A -> jsval -> M A) (init : M A) : M A :=
  match v with
  | JArr items => acc <- init ;; foldM f items acc
  | JUndefined | JNull => throw TypeError
  | _ => _ <- init ;; throw TypeError
  end.

(** ** The decimal library as the source calls it *)

(** Modelled from the spec: the constructor of the external module
    ['bigdecimal'] is [parse] of section 4.2: it fails with InvalidDecimal on
    what is not a decimal numeral. *)
Definition bigdec (value : jsval) : M bigDecimal :=
  match value with
  | JStr s => d <- lift InvalidDecimal (Dec.parse s) ;; alloc d
  | _ => throw InvalidDecimal
  end.

(** Modelled from the spec: the methods of section 4.2 combine Money values,
    and section 3 forbids a raw string in arithmetic, so the operand of a
    method is a [bigDecimal]; anything else is rejected. *)
Definition to_operand (v : jsval) : M Dec.t :=
  match v with
  | JDec d => ret (val d)
  | _ => throw TypeError
  end.

(** Modelled from the spec: [x.m(v)] for the methods of section 4.2 ([add],
    [subtract], [multiply], [divide] with its scale): the call is recorded,
    the operand read, and the result is a new object.  [plus] is not among
    these methods: a call of it with an operand is rejected. *)
Definition invoke (m : method) (x : bigDecimal) (v : jsval) : M bigDecimal :=
  _ <- log (Call m x v) ;;
  match m with
  | Plus => throw TypeError
  | Multiply => d <- to_operand v ;; alloc (Dec.multiply (val x) d)
  | Divide s =>
      d <- to_operand v ;;
      q <- lift DivisionByZero (Dec.divide (val x) d s) ;;
      alloc q
  | Add => d <- to_operand v ;; alloc (Dec.add (val x) d)
  | Subtract => d <- to_operand v ;; alloc (Dec.subtract (val x) d)
  end.

Definition multiply (x : bigDecimal) (v : jsval) : M bigDecimal :=
  invoke Multiply x v.
Definition divide (x : bigDecimal) (v : jsval) (s : nat) : M bigDecimal :=
  invoke (Divide s) x v.
Definition plus (x : bigDecimal) (v : jsval) : M bigDecimal := invoke Plus x v.
Definition add (x : bigDecimal) (v : jsval) : M bigDecimal := invoke Add x v.
Definition subtract (x : bigDecimal) (v : jsval) : M bigDecimal :=
  invoke Subtract x v.

(** ** Derived-field functions (createSchema) *)

Definition supplyBalanceUnderlying (cToken : jsval) : M bigDecimal :=
  b <- get cToken "cTokenBalance" ;;
  x <- bigdec b ;;
  market <- get cToken "market" ;;
  e <- get market "exchangeRate" ;;
  multiply x e.

Definition borrowBalanceUnderlying (cToken : jsval) : M bigDecimal :=
  i <- get cToken "accountBorrowIndex" ;;
  a <- bigdec i ;;
  z <- bigdec (JStr "0") ;;
  if loose_eq a z then bigdec (JStr "0")
  else
    s <- get cToken "storedBorrowBalance" ;;
    x <- bigdec s ;;
    market <- get cToken "market" ;;
    bi <- get market "borrowIndex" ;;
    y <- multiply x bi ;;
    i' <- get cToken "accountBorrowIndex" ;;
    divide y i' 18.

Definition tokenInEth (market : jsval) : M bigDecimal :=
  cf <- get market "collateralFactor" ;;
  x <- bigdec cf ;;
  e <- get market "exchangeRate" ;;
  y <- multiply x e ;;
  p <- get market "underlyingPrice" ;;
  multiply y p.

Definition supplyBalanceETH (cToken : jsval) : M bigDecimal :=
  x <- supplyBalanceUnderlying cToken ;;
  market <- get cToken "market" ;;
  p <- get market "underlyingPrice" ;;
  multiply x p.

Definition borrowBalanceETH (cToken : jsval) : M bigDecimal :=
  x <- borrowBalanceUnderlying cToken ;;
  market <- get cToken "market" ;;
  p <- get market "underlyingPrice" ;;
  multiply x p.

(** The callback of the [reduce] in [totalCollateralValueInEth]. *)
Definition addCollateral (acc : bigDecimal) (token : jsval) : M bigDecimal :=
  market <- get token "market" ;;
  x <- tokenInEth market ;;
  b <- get token "cTokenBalance" ;;
  y <- multiply x b ;;
  plus acc (JDec y).

Definition totalCollateralValueInEth (account : jsval) : M bigDecimal :=
  tokens <- get account "___tokens" ;;
  reduce tokens addCollateral (bigdec (JStr "0")).

(** The callback of the [reduce] in [totalBorrowValueInEth]. *)
Definition addBorrow (acc : bigDecimal) (token : jsval) : M bigDecimal :=
  market <- get token "market" ;;
  p <- get market "underlyingPrice" ;;
  x <- bigdec p ;;
  b <- borrowBalanceUnderlying token ;;
  y <- multiply x (JDec b) ;;
  plus acc (JDec y).

Definition totalBorrowValueInEth (account : jsval) : M bigDecimal :=
  h <- get account "hasBorrowed" ;;
  if negb (truthy h) then bigdec (JStr "0")
  else
    tokens <- get account "___tokens" ;;
    reduce tokens addBorrow (bigdec (JStr "0")).

(** ** Resolvers (the [resolve] members handed to mergeSchemas) *)

Module Resolve.

Definition health (account : jsval) : M jsval :=
  h <- get account "hasBorrowed" ;;
  if negb (truthy h) then ret JNull
  else
    totalBorrow <- totalBorrowValueInEth account ;;
    z <- bigdec (JStr "0") ;;
    if loose_eq totalBorrow z
    then c <- totalCollateralValueInEth account ;; ret (JDec c)
    else
      c <- totalCollateralValueInEth account ;;
      q <- divide c (JDec totalBorrow) 18 ;;
      ret (JDec q).

Definition totalBorrowValueInEth (account : jsval) : M jsval :=
  x <- totalBorrowValueInEth account ;; ret (JDec x).

Definition totalCollateralValueInEth (account : jsval) : M jsval :=
  x <- totalCollateralValueInEth account ;; ret (JDec x).

Definition lifetimeSupplyInterestAccrued (cToken : jsval) : M jsval :=
  x <- supplyBalanceUnderlying cToken ;;
  s <- get cToken "totalUnderlyingSupplied" ;;
  y <- subtract x s ;;
  r <- get cToken "totalUnderlyingRedeemed" ;;
  z <- add y r ;;
  ret (JDec z).

Definition lifetimeBorrowInterestAccrued (cToken : jsval) : M jsval :=
  x <- borrowBalanceUnderlying cToken ;;
  b <- get cToken "totalUnderlyingBorrowed" ;;
  y <- subtract x b ;;
  r <- get cToken "totalUnderlyingRepaid" ;;
  z <- add y r ;;
  ret (JDec z).

(* The resolvers below take the name of the function they call. *)
Definition supplyBalanceUnderlying (cToken : jsval) : M jsval :=
  x <- supplyBalanceUnderlying cToken ;; ret (JDec x).

Definition supplyBalanceETH (cToken : jsval) : M jsval :=
  x <- supplyBalanceETH cToken ;; ret (JDec x).

Definition borrowBalanceUnderlying (cToken : jsval) : M jsval :=
  x <- borrowBalanceUnderlying cToken ;; ret (JDec x).

Definition borrowBalanceETH (cToken : jsval) : M jsval :=
  x <- borrowBalanceETH cToken ;; ret (JDec x).

End Resolve.

(** ** Upstream entities *)

(** The upstream schema's types (every number a decimal string) and the
    objects the upstream answers with. *)
Record Market : Type := {
  exchangeRate : string;
  borrowIndex : string;
  collateralFactor : string;
  underlyingPrice : string
}.

Record AccountCToken : Type := {
  token_id : string;
  cTokenBalance : string;
  storedBorrowBalance : string;
  accountBorrowIndex : string;
  totalUnderlyingSupplied : string;
  totalUnderlyingRedeemed : string;
  totalUnderlyingBorrowed : string;
  totalUnderlyingRepaid : string;
  market : Market
}.

Record Account : Type := {
  account_id : string;
  hasBorrowed : bool;
  tokens : list AccountCToken
}.

Definition js_market (m : Market) : jsval :=
  JObj [("exchangeRate", JStr (exchangeRate m));
        ("borrowIndex", JStr (borrowIndex m));
        ("collateralFactor", JStr (collateralFactor m));
        ("underlyingPrice", JStr (underlyingPrice m))].

Definition js_token (t : AccountCToken) : jsval :=
  JObj [("id", JStr (token_id t));
        ("cTokenBalance", JStr (cTokenBalance t));
        ("storedBorrowBalance", JStr (storedBorrowBalance t));
        ("accountBorrowIndex", JStr (accountBorrowIndex t));
        ("totalUnderlyingSupplied", JStr (totalUnderlyingSupplied t));
        ("totalUnderlyingRedeemed", JStr (totalUnderlyingRedeemed t));
        ("totalUnderlyingBorrowed", JStr (totalUnderlyingBorrowed t));
        ("totalUnderlyingRepaid", JStr (totalUnderlyingRepaid t));
        ("market", js_market (market t))].

(** The upstream's answer for an account, under the upstream's field names. *)
Definition js_account (a : Account) : jsval :=
  JObj [("id", JStr (account_id a));
        ("hasBorrowed", JBool (hasBorrowed a));
        ("tokens", JArr (map js_token (tokens a)))].

(** ** Fragments *)

(** A field of a selection set: [alias: name { sub }]. *)
Inductive selection : Type :=
| Field (alias : option string) (name : string) (sub : list selection).

Definition leaf (name : string) : selection := Field None name [].

Definition response_key (s : selection) : string :=
  match s with
  | Field (Some a) _ _ => a
  | Field None name _ => name
  end.

(** What the upstream returns for one selected field of an object: the field
    under its response key, narrowed to the sub-selection.  The selection
    sets the upstream is asked for name upstream fields only: the composer
    has replaced the derived fields before (see [expand]). *)
Fixpoint fetch_field (s : selection) (parent : list (string * jsval))
  : string * jsval :=
  match s with
  | Field alias name sub =>
      let narrow (o : jsval) : jsval :=
        match o with
        | JObj fs => JObj (map (fun s' => fetch_field s' fs) sub)
        | _ => o
        end in
      let v := lookup_field name parent in
      (response_key (Field alias name sub),
       match sub with
       | [] => v
       | _ :: _ =>
           match v with
           | JArr items => JArr (map narrow items)
           | _ => narrow v
           end
       end)
  end.

(** The upstream's answer to a selection set on an entity. *)
Definition fetch (sel : list selection) (entity : jsval) : jsval :=
  match entity with
  | JObj fs => JObj (map (fun s => fetch_field s fs) sel)
  | _ => entity
  end.

Definition sub_of (s : selection) : list selection :=
  match s with
  | Field _ _ sub => sub
  end.

(** [selects path sel]: the selection set names the field at [path], a path
    of response keys from the entity down. *)
Fixpoint selects (path : list string) (sel : list selection) : bool :=
  match path with
  | [] => true
  | k :: rest =>
      existsb
        (fun s => String.eqb (response_key s) k && selects rest (sub_of s))
        sel
  end.

(** A fragment [... on T { selection }]. *)
Record fragment : Type := On { on_type : string; selection_set : list selection }.

Module Fragment.

Definition health : fragment :=
  On "Account"
    [leaf "id";
     leaf "hasBorrowed";
     Field (Some "___tokens") "tokens"
       [leaf "cTokenBalance";
        leaf "storedBorrowBalance";
        leaf "accountBorrowIndex";
        Field None "market"
          [leaf "borrowIndex";
           leaf "collateralFactor";
           leaf "exchangeRate";
           leaf "underlyingPrice"]]].

Definition totalBorrowValueInEth : fragment :=
  On "Account"
    [leaf "id";
     leaf "hasBorrowed";
     Field (Some "___tokens") "tokens"
       [leaf "cTokenBalance";
        leaf "storedBorrowBalance";
        leaf "accountBorrowIndex";
        Field None "market"
          [leaf "borrowIndex";
           leaf "collateralFactor";
           leaf "exchangeRate";
           leaf "underlyingPrice"]]].

Definition totalCollateralValueInEth : fragment :=
  On "Account"
    [leaf "id";
     Field (Some "___tokens") "tokens"
       [leaf "cTokenBalance";
        Field None "market"
          [leaf "collateralFactor";
           leaf "exchangeRate";
           leaf "underlyingPrice"]]].

Definition supplyBalanceUnderlying : fragment :=
  On "AccountCToken"
    [leaf "id";
     leaf "cTokenBalance";
     Field None "market" [leaf "exchangeRate"]].

Definition supplyBalanceETH : fragment :=
  On "AccountCToken"
    [leaf "id";
     leaf "supplyBalanceUnderlying";
     Field None "market" [leaf "underlyingPrice"]].

Definition lifetimeSupplyInterestAccrued : fragment :=
  On "AccountCToken"
    [leaf "id";
     leaf "cTokenBalance";
     Field None "market" [leaf "exchangeRate"];
     leaf "totalUnderlyingSupplied";
     leaf "totalUnderlyingRedeemed"].

Definition borrowBalanceUnderlying : fragment :=
  On "AccountCToken"
    [leaf "id";
     leaf "storedBorrowBalance";
     leaf "accountBorrowIndex";
     Field None "market" [leaf "borrowIndex"]].

Definition borrowBalanceETH : fragment :=
  On "AccountCToken"
    [leaf "id";
     leaf "borrowBalanceUnderlying";
     Field None "market" [leaf "underlyingPrice"]].

Definition lifetimeBorrowInterestAccrued : fragment :=
  On "AccountCToken"
    [leaf "id";
     leaf "storedBorrowBalance";
     leaf "accountBorrowIndex";
     Field None "market" [leaf "borrowIndex"];
     leaf "totalUnderlyingBorrowed";
     leaf "totalUnderlyingRepaid"].

End Fragment.

(** ** Schema extension and field registrations *)

(** A field declaration [name: type] of a type extension; [non_null] is the
    trailing [!]. *)
Record field_decl : Type :=
  Decl { field_name : string; type_name : string; non_null : bool }.

(** [extend type T { fields }]. *)
Record extension : Type :=
  Extend { extended : string; fields_of : list field_decl }.

Definition customSchema : list extension :=
  [Extend "Account"
     [Decl "totalBorrowValueInEth" "BigDecimal" true;
      Decl "totalCollateralValueInEth" "BigDecimal" true];
   Extend "AccountCToken"
     [Decl "supplyBalanceUnderlying" "BigDecimal" true;
      Decl "lifetimeSupplyInterestAccrued" "BigDecimal" true;
      Decl "borrowBalanceUnderlying" "BigDecimal" true;
      Decl "lifetimeBorrowInterestAccrued" "BigDecimal" true;
      Decl "supplyBalanceETH" "BigDecimal" true]].

(** What mergeSchemas is given for one field. *)
Record registration : Type :=
  Reg { reg_fragment : fragment; reg_resolve : jsval -> M jsval }.

(** The [resolvers] argument of mergeSchemas: type, field, registration. *)
Definition resolvers : list (string * list (string * registration)) :=
  [("Account",
    [("health", Reg Fragment.health Resolve.health);
     ("totalBorrowValueInEth",
      Reg Fragment.totalBorrowValueInEth Resolve.totalBorrowValueInEth);
     ("totalCollateralValueInEth",
      Reg Fragment.totalCollateralValueInEth Resolve.totalCollateralValueInEth)]);
   ("AccountCToken",
    [("supplyBalanceUnderlying",
      Reg Fragment.supplyBalanceUnderlying Resolve.supplyBalanceUnderlying);
     ("supplyBalanceETH",
      Reg Fragment.supplyBalanceETH Resolve.supplyBalanceETH);
     ("lifetimeSupplyInterestAccrued",
      Reg Fragment.lifetimeSupplyInterestAccrued
          Resolve.lifetimeSupplyInterestAccrued);
     ("borrowBalanceUnderlying",
      Reg Fragment.borrowBalanceUnderlying Resolve.borrowBalanceUnderlying);
     ("borrowBalanceETH",
      Reg Fragment.borrowBalanceETH Resolve.borrowBalanceETH);
     ("lifetimeBorrowInterestAccrued",
      Reg Fragment.lifetimeBorrowInterestAccrued
          Resolve.lifetimeBorrowInterestAccrued)])].

(** The fields with a resolver, as (type, field) pairs. *)
Definition registered : list (string * string) :=
  flat_map (fun '(ty, fs) => map (fun '(f, _) => (ty, f)) fs) resolvers.

(** The declaration of field [f] in the extension of type [ty], if any. *)
Definition declared (schema : list extension) (ty f : string)
  : option field_decl :=
  match List.find (fun e => String.eqb (extended e) ty) schema with
  | Some e => List.find (fun d => String.eqb (field_name d) f) (fields_of e)
  | None => None
  end.

Definition registration_of (ty f : string) : option registration :=
  match List.find (fun '(t, _) => String.eqb t ty) resolvers with
  | Some (_, fs) => snd <$> List.find (fun '(g, _) => String.eqb g f) fs
  | None => None
  end.

(** ** Operation split between the two upstream channels *)

(** A top-level definition of a parsed document: its [kind], and the
    operation kind of an operation definition. *)
Record DefinitionNode : Type :=
  { kind : string; operation : option string }.

Record Operation : Type :=
  { query : list DefinitionNode; operationName : option string }.

Inductive channel : Type := wsLink | httpLink.

(** apollo-link's [split]: each operation goes left when the test holds for
    it and right otherwise. *)
Definition split {L : Type} (test : Operation -> option bool) (left right : L)
  : Operation -> option L :=
  fun op => (fun b : bool => if b then left else right) <$> test op.

Section Link.

(** apollo-utilities' getMainDefinition; [None] when it throws. *)
Variable getMainDefinition : list DefinitionNode -> option DefinitionNode.

Definition is_subscription (op : Operation) : option bool :=
  match getMainDefinition (query op) with
  | Some d =>
      Some (String.eqb (kind d) "OperationDefinition" &&
            bool_decide (operation d = Some "subscription"))
  | None => None
  end.

Definition link : Operation -> option channel :=
  split is_subscription wsLink httpLink.

End Link.

(** ** Header filter (rejectBadHeaders) *)

Record Request : Type :=
  { headers : gmap string string; url : string; body : string }.

(** The response under construction: its status and what was sent, if
    anything was. *)
Record Response : Type := { statusCode : nat; sent : option string }.

Definition status (code : nat) (res : Response) : Response :=
  {| statusCode := code; sent := sent res |}.

Definition send (content : string) (res : Response) : Response :=
  {| statusCode := statusCode res; sent := Some content |}.

Definition Handler : Type := Request -> Response -> Response.

(** A middleware is given the rest of the chain as [next]. *)
Definition Middleware : Type := Request -> Response -> Handler -> Response.

(** [req.headers[name]]: [undefined] when the request has no such header. *)
Definition header (req : Request) (name : string) : jsval :=
  match headers req !! name with
  | Some v => JStr v
  | None => JUndefined
  end.

Definition rejectBadHeaders : Middleware :=
  fun req res next =>
    if truthy (header req "challenge-bypass-token")
       || truthy (header req "x_proxy_id")
    then send "Bad Request" (status 400 res)
    else next req res.

(** [app.use] in order: each middleware runs the rest when it calls
    [next]. *)
Fixpoint chain (ms : list Middleware) (final : Handler) : Handler :=
  match ms with
  | [] => final
  | m :: rest => fun req res => m req res (chain rest final)
  end.

(** The application of [run]: the header filter first, then the middleware
    and the GraphQL handler installed after it. *)
Definition app (later : list Middleware) (graphql : Handler) : Handler :=
  chain (rejectBadHeaders :: later) graphql.

(** ** Vocabulary of the statements *)

Definition name_of (s : selection) : string :=
  match s with
  | Field _ name _ => name
  end.

(** Modelled from the spec: the composer (mergeSchemas, external) hands a
    resolver an object that contains everything its fragment names,
    including what is consumed through other derived fields (section 4.4).
    A field of a fragment on type [ty] that is itself a registered derived
    field of [ty] is not an upstream field: it is replaced by the selection
    set of its own fragment, and so on through the fragments it names.  The
    fragments of the source name derived fields at their top level only.
    [fuel] bounds the depth; the number of registered fields is enough when
    no fragment names itself. *)
Fixpoint expand (fuel : nat) (ty : string) (sel : list selection)
  : list selection :=
  match fuel with
  | O =>
      List.filter (fun s =>
                match registration_of ty (name_of s) with
                | Some _ => false
                | None => true
                end) sel
  | S n =>
      flat_map
        (fun s =>
           match registration_of ty (name_of s) with
           | Some r => expand n ty (selection_set (reg_fragment r))
           | None => [s]
           end) sel
  end.

(** Fields with the same response key are one field whose sub-selections
    are put together. *)
Definition absorb (acc : list selection) (s : selection) : list selection :=
  if existsb (fun a => String.eqb (response_key a) (response_key s)) acc
  then
    map (fun a =>
           if String.eqb (response_key a) (response_key s)
           then match a with
                | Field alias name sub => Field alias name (sub ++ sub_of s)
                end
           else a) acc
  else acc ++ [s].

Definition merge (sel : list selection) : list selection :=
  fold_left absorb sel [].

(** The selection set the upstream is asked for on behalf of a fragment. *)
Definition requested (f : fragment) : list selection :=
  merge (expand (length registered) (on_type f) (selection_set f)).

(** The object a resolver is handed when the upstream is asked for exactly
    what its fragment requires. *)
Definition handed (f : fragment) (entity : jsval) : jsval :=
  fetch (requested f) entity.

(** The value found by following [path] from [o] through objects. *)
Fixpoint at_path (o : jsval) (path : list string) : option jsval :=
  match path with
  | [] => Some o
  | k :: rest =>
      match o with
      | JObj fs => at_path (lookup_field k fs) rest
      | _ => None
      end
  end.

Definition numeric (s : string) : bool := bool_decide (is_Some (Dec.parse s)).

(** The decimal a numeric string denotes. *)
Definition dec_of (s : string) : Dec.t := default Dec.zero (Dec.parse s).

(** The value a computation returns, whatever the identity of the object. *)
Definition value_of (r : result bigDecimal * store) : result Dec.t :=
  match fst r with
  | Ok d => Ok (val d)
  | Throw e => Throw e
  end.

(** The computation throws. *)
Definition fails {A} (r : result A * store) : Prop :=
  exists e, fst r = Throw e.

(** The spec's [borrowBalanceUnderlying] past the zero index:
    [storedBorrowBalance * borrowIndex / accountBorrowIndex], the quotient
    with 18 fractional digits, rounded down. *)
Definition spec_borrowBalanceUnderlying (t : AccountCToken) : option Dec.t :=
  Dec.divide
    (Dec.multiply (dec_of (storedBorrowBalance t))
                  (dec_of (borrowIndex (market t))))
    (dec_of (accountBorrowIndex t)) 18.

(** The spec's [collateralValueInReferenceCurrency]:
    [collateralFactor * exchangeRate * underlyingPrice * balance]. *)
Definition spec_collateralValue (t : AccountCToken) : Dec.t :=
  Dec.multiply
    (Dec.multiply
       (Dec.multiply (dec_of (collateralFactor (market t)))
                     (dec_of (exchangeRate (market t))))
       (dec_of (underlyingPrice (market t))))
    (dec_of (cTokenBalance t)).

(** The spec's [totalCollateralValueInReferenceCurrency]: the sum over the
    positions, folded left from zero. *)
Definition spec_totalCollateralValue (a : Account) : Dec.t :=
  fold_left (fun acc t => Dec.add acc (spec_collateralValue t)) (tokens a)
            Dec.zero.

(** The operand of a call is a [bigDecimal]. *)
Definition money_operand (c : call) : bool :=
  match operand c with
  | JDec _ => true
  | _ => false
  end.

(** An account object as the account resolvers name its fields: the
    upstream's object with the positions also under the alias the fragments
    give them. *)
Definition aliased (fields : list (string * jsval)) : jsval :=
  JObj (("___tokens", lookup_field "tokens" fields) :: fields).

(** The registered fields the schema extension does not declare. *)
Definition undeclared : list (string * string) :=
  filter (fun '(ty, f) => bool_decide (declared customSchema ty f = None))
         registered.

(** The request has the header with a value that is not empty. *)
Definition nonempty_header (req : Request) (name : string) : Prop :=
  exists v, headers req !! name = Some v /\ v <> "".

(** ** Startup configuration *)

(** [process.env[name]]. *)
Definition env_var (env : gmap string string) (name : string) : jsval :=
  match env !! name with
  | Some v => JStr v
  | None => JUndefined
  end.

(** The two checks at the head of the module: the endpoints, or the message
    of the [Error] thrown. *)
Definition endpoints (env : gmap string string) : string + jsval * jsval :=
  let SUBGRAPH_QUERY_ENDPOINT := env_var env "SUBGRAPH_QUERY_ENDPOINT" in
  let SUBGRAPH_SUBSCRIPTION_ENDPOINT :=
    env_var env "SUBGRAPH_SUBSCRIPTION_ENDPOINT" in
  if negb (truthy SUBGRAPH_QUERY_ENDPOINT)
  then inl "Environment variable SUBGRAPH_QUERY_ENDPOINT is not set"
  else if negb (truthy SUBGRAPH_SUBSCRIPTION_ENDPOINT)
  then inl "Environment variable SUBGRAPH_SUBSCRIPTION_ENDPOINT is not set"
  else inr (SUBGRAPH_QUERY_ENDPOINT, SUBGRAPH_SUBSCRIPTION_ENDPOINT).

(** The variable is set to a value that is not empty. *)
Definition is_set (env : gmap string string) (name : string) : Prop :=
  exists v, env !! name = Some v /\ v <> "".

(** ** Scenarios *)

Definition a_market (er bi cf up : string) : Market :=
  {| exchangeRate := er; borrowIndex := bi;
     collateralFactor := cf; underlyingPrice := up |}.

Definition a_token (bal stored index : string) (m : Market) : AccountCToken :=
  {| token_id := "0xc-0xa"; cTokenBalance := bal;
     storedBorrowBalance := stored; accountBorrowIndex := index;
     totalUnderlyingSupplied := "0"; totalUnderlyingRedeemed := "0";
     totalUnderlyingBorrowed := "0"; totalUnderlyingRepaid := "0";
     market := m |}.

(** Scenario 1: exchangeRate 2, balance 10, accountBorrowIndex 0. *)
Definition scenario1 : AccountCToken :=
  a_token "10" "0" "0" (a_market "2" "1" "0.5" "1").

(** Scenario 2: storedBorrowBalance 100, borrowIndex 1.1,
    accountBorrowIndex 1.0. *)
Definition scenario2 : AccountCToken :=
  a_token "10" "100" "1.0" (a_market "2" "1.1" "0.5" "1").

(** Scenario 3: the account has borrowed, its two positions are worth 50 and
    30 as collateral and owe nothing. *)
Definition scenario3 : Account :=
  {| account_id := "0xa"; hasBorrowed := true;
     tokens := [a_token "100" "0" "1" (a_market "1" "1" "0.5" "1");
                a_token "60" "0" "1" (a_market "1" "1" "0.5" "1")] |}.

(** An account that never borrowed. *)
Definition saver : Account :=
  {| account_id := "0xb"; hasBorrowed := false;
     tokens := [a_token "100" "0" "0" (a_market "1" "1" "0.5" "1")] |}.

(** An account that has borrowed and holds no position any more: it owes
    nothing and has no collateral. *)
Definition closed_out : Account :=
  {| account_id := "0xc"; hasBorrowed := true; tokens := [] |}.

(** A position that borrowed: stored balance 100 at index 1.0, the market
    index now 1.1, price 2. *)
Definition borrower_token : AccountCToken :=
  {| token_id := "0xc-0xd"; cTokenBalance := "300";
     storedBorrowBalance := "100"; accountBorrowIndex := "1.0";
     totalUnderlyingSupplied := "250"; totalUnderlyingRedeemed := "40";
     totalUnderlyingBorrowed := "120"; totalUnderlyingRepaid := "15";
     market := a_market "1" "1.1" "0.5" "2" |}.

Definition borrower : Account :=
  {| account_id := "0xd"; hasBorrowed := true; tokens := [borrower_token] |}.

(** An answer without [hasBorrowed], its positions unreadable. *)
Definition flagless : jsval :=
  JObj [("id", JStr "0xg"); ("___tokens", JStr "n/a")].


(** A request whose [x_proxy_id] header has the empty value. *)
Definition empty_proxy_id : Request :=
  {| headers := {[ "x_proxy_id" := "" ]}; url := "/"; body := "{ accounts { id } }" |}.

Definition proxied : Request :=
  {| headers := {[ "x_proxy_id" := "p1" ]}; url := "/"; body := "{ accounts { id } }" |}.

(** A request that came through a proxy which added [via]. *)
Definition via_proxy : Request :=
  {| headers := {[ "via" := "1.1 edge" ]}; url := "/"; body := "" |}.

Definition fresh_response : Response := {| statusCode := 200; sent := None |}.

(** A stand-in for the handlers after the filter. *)
Definition answer : Handler := fun _ res => send "{}" res.

Definition a_subscription : Operation :=
  {| query := [{| kind := "OperationDefinition"; operation := Some "subscription" |}];
     operationName := None |}.

Definition a_query : Operation :=
  {| query := [{| kind := "FragmentDefinition"; operation := None |};
               {| kind := "OperationDefinition"; operation := Some "query" |}];
     operationName := None |}.

(** The first operation definition of the document. *)
Definition first_operation (doc : list DefinitionNode) : option DefinitionNode :=
  List.find (fun d => String.eqb (kind d) "OperationDefinition") doc.

Definition an_env : gmap string string :=
  {[ "SUBGRAPH_QUERY_ENDPOINT" := "http://node/subgraphs/name/lodestar";
     "SUBGRAPH_SUBSCRIPTION_ENDPOINT" := "ws://node/subgraphs/name/lodestar" ]}.

(** * Properties *)

(** ** The decimal value *)

Example parse_fraction : Dec.parse "1.1" = Some (Dec.mk 11 1).
Proof. reflexivity. Qed.

Example parse_negative : Dec.parse "-0.05" = Some (Dec.mk (-5) 2).
Proof. reflexivity. Qed.

Example parse_not_numeric : Dec.parse "1a" = None.
Proof. reflexivity. Qed.

Example parse_empty : Dec.parse "" = None.
Proof. reflexivity. Qed.

Example toString_negative : Dec.toString (Dec.mk (-5) 2) = "-0.05".
Proof. vm_compute. reflexivity. Qed.

Example divide_rounds_down :
  Dec.divide (Dec.mk 2 0) (Dec.mk 3 0) 3 = Some (Dec.mk 666 3) /\
  Dec.divide (Dec.mk (-2) 0) (Dec.mk 3 0) 3 = Some (Dec.mk (-666) 3).
Proof. split; reflexivity. Qed.

Example eqv_by_value : Dec.eqv (Dec.mk 10 1) (Dec.mk 1 0) = true.
Proof. reflexivity. Qed.

Lemma pow10_pos (n : nat) : 0 < Dec.pow10 n.
Proof. unfold Dec.pow10. apply Z.pow_pos_nonneg; lia. Qed.

(** The quotient of [divide] is the exact quotient cut after [s] digits: its
    distance to the exact quotient is less than one unit of the last digit,
    on the side of zero. *)
Lemma divide_round_down (a b q : Dec.t) (s : nat) :
  Dec.divide a b s = Some q ->
  let n := Dec.unscaled a * Dec.pow10 (s + Dec.scale b) in
  let d := Dec.unscaled b * Dec.pow10 (Dec.scale a) in
  Dec.scale q = s /\
  Z.abs (Dec.unscaled q * d) <= Z.abs n < Z.abs (Dec.unscaled q * d) + Z.abs d.
Proof.
  unfold Dec.divide, Dec.is_zero.
  destruct (Z.eqb_spec (Dec.unscaled b) 0) as [|Hb]; [discriminate|].
  intros [= <-]. cbn [Dec.scale Dec.unscaled].
  set (n := Dec.unscaled a * Dec.pow10 (s + Dec.scale b)).
  set (d := Dec.unscaled b * Dec.pow10 (Dec.scale a)).
  split; [reflexivity|].
  assert (Hd : d <> 0).
  { unfold d. pose proof (pow10_pos (Dec.scale a)). nia. }
  rewrite Z.abs_mul, <- Z.quot_abs by exact Hd.
  rewrite Z.quot_div_nonneg by lia.
  pose proof (Z.mul_div_le (Z.abs n) (Z.abs d)).
  pose proof (Z.mul_succ_div_gt (Z.abs n) (Z.abs d)).
  lia.
Qed.

Lemma numeric_parse (s : string) :
  numeric s = true -> Dec.parse s = Some (dec_of s).
Proof.
  unfold numeric, dec_of. intros H. apply bool_decide_eq_true in H.
  destruct H as [d ->]. reflexivity.
Qed.

Lemma divide_zero_divisor (a b : Dec.t) (s : nat) :
  Dec.is_zero b = true -> Dec.divide a b s = None.
Proof. unfold Dec.divide. intros ->. reflexivity. Qed.

Lemma divide_nonzero_divisor (a b : Dec.t) (s : nat) :
  Dec.is_zero b = false ->
  Dec.divide a b s =
  Some (Dec.mk (Z.quot (Dec.unscaled a * Dec.pow10 (s + Dec.scale b))
                       (Dec.unscaled b * Dec.pow10 (Dec.scale a))) s).
Proof. unfold Dec.divide. intros ->. reflexivity. Qed.

(** ** Steps of a computation *)

Lemma bind_ok {A B} (c : M A) (k : A -> M B) st a st' :
  c st = (Ok a, st') -> bind c k st = k a st'.
Proof. unfold bind. intros ->. reflexivity. Qed.

Lemma bind_throw {A B} (c : M A) (k : A -> M B) st e st' :
  c st = (Throw e, st') -> bind c k st = (Throw e, st').
Proof. unfold bind. intros ->. reflexivity. Qed.

Lemma bind_inv {A B} (c : M A) (k : A -> M B) st b st' :
  bind c k st = (Ok b, st') ->
  exists a st1, c st = (Ok a, st1) /\ k a st1 = (Ok b, st').
Proof.
  unfold bind. destruct (c st) as [[a|e] st1]; [eauto | discriminate].
Qed.

Lemma bind_fails {A B} (c : M A) (k : A -> M B) st :
  fails (c st) -> fails (bind c k st).
Proof.
  unfold fails, bind. intros [e H].
  destruct (c st) as [[a|e'] st1]; simpl in H; [discriminate|].
  exists e'. reflexivity.
Qed.

Lemma bind_fails_after {A B} (c : M A) (k : A -> M B) st :
  (forall a st1, c st = (Ok a, st1) -> fails (k a st1)) -> fails (bind c k st).
Proof.
  unfold bind. intros H.
  destruct (c st) as [[a|e] st1]; [apply H; reflexivity|].
  exists e. reflexivity.
Qed.

Lemma get_obj fs k st : get (JObj fs) k st = (Ok (lookup_field k fs), st).
Proof. reflexivity. Qed.

Lemma at_path_cons o k rest v :
  at_path o (k :: rest) = Some v ->
  exists fs, o = JObj fs /\ at_path (lookup_field k fs) rest = Some v.
Proof. destruct o; simpl; try discriminate. eauto. Qed.

Lemma at_path_field o k v :
  at_path o [k] = Some v -> exists fs, o = JObj fs /\ lookup_field k fs = v.
Proof.
  intros H. apply at_path_cons in H as (fs & -> & H). simpl in H.
  exists fs. split; congruence.
Qed.

Lemma numeric_false_parse (s : string) :
  numeric s = false -> Dec.parse s = None.
Proof.
  unfold numeric. intros H. apply bool_decide_eq_false in H.
  destruct (Dec.parse s); [|reflexivity]. exfalso. apply H. eauto.
Qed.

Lemma bigdec_str s st :
  numeric s = true ->
  bigdec (JStr s) st =
  (Ok (Obj (next_ref st) (dec_of s)), Store (S (next_ref st)) (calls st)).
Proof.
  intros H. unfold bigdec. rewrite (numeric_parse _ H). reflexivity.
Qed.

Lemma bigdec_not_numeric s st :
  numeric s = false -> bigdec (JStr s) st = (Throw InvalidDecimal, st).
Proof.
  intros H. unfold bigdec. rewrite (numeric_false_parse _ H). reflexivity.
Qed.

Lemma bigdec_0 st :
  bigdec (JStr "0") st =
  (Ok (Obj (next_ref st) Dec.zero), Store (S (next_ref st)) (calls st)).
Proof. reflexivity. Qed.

Lemma bigdec_inv v st d st' :
  bigdec v st = (Ok d, st') ->
  exists s, v = JStr s /\ numeric s = true /\ val d = dec_of s.
Proof.
  destruct v; try discriminate. unfold bigdec, lift, bind. intros H.
  exists s. split; [reflexivity|]. unfold numeric, dec_of.
  destruct (Dec.parse s) eqn:E; [|discriminate].
  unfold ret, alloc in H. injection H as <- <-.
  split; [apply bool_decide_eq_true; eauto | reflexivity].
Qed.

(** A method handed a raw string records the call and rejects it. *)
Lemma invoke_raw m x s st :
  invoke m x (JStr s) st
  = (Throw TypeError, Store (next_ref st) (calls st ++ [Call m x (JStr s)])).
Proof. destruct m; reflexivity. Qed.

Lemma multiply_raw x s st :
  multiply x (JStr s) st
  = (Throw TypeError,
     Store (next_ref st) (calls st ++ [Call Multiply x (JStr s)])).
Proof. reflexivity. Qed.

Lemma loose_eq_fresh n a b : loose_eq (Obj n a) (Obj (S n) b) = false.
Proof. unfold loose_eq. simpl. apply Nat.eqb_neq. lia. Qed.

(** ** The zero tests compare identities *)

Lemma bigdec_ref v st d st' :
  bigdec v st = (Ok d, st') -> ref d = next_ref st /\ next_ref st' = S (ref d).
Proof.
  destruct v; try discriminate. unfold bigdec, lift, bind.
  destruct (Dec.parse s); [|discriminate].
  unfold ret, alloc. intros [= <- <-]. auto.
Qed.

Lemma invoke_ref m x v st d st' :
  invoke m x v st = (Ok d, st') -> next_ref st' = S (ref d).
Proof.
  unfold invoke. intros H.
  apply bind_inv in H as (_ & st1 & _ & H).
  destruct m; try discriminate;
    apply bind_inv in H as (y & st2 & _ & H);
    try (apply bind_inv in H as (q & st3 & _ & H));
    unfold alloc in H; injection H as <- <-; reflexivity.
Qed.

Lemma foldM_ref (f : bigDecimal -> jsval -> M bigDecimal) :
  (forall acc x st d st', f acc x st = (Ok d, st') -> next_ref st' = S (ref d)) ->
  forall items acc st d st',
    next_ref st = S (ref acc) ->
    foldM f items acc st = (Ok d, st') -> next_ref st' = S (ref d).
Proof.
  intros Hf. induction items as [|x items IH]; intros acc st d st' Hacc H.
  - injection H as <- <-. exact Hacc.
  - cbn [foldM] in H. apply bind_inv in H as (acc1 & st1 & H1 & H).
    eapply IH; [|exact H]. eapply Hf. exact H1.
Qed.

Lemma addBorrow_ref acc x st d st' :
  addBorrow acc x st = (Ok d, st') -> next_ref st' = S (ref d).
Proof.
  unfold addBorrow. intros H.
  do 5 (apply bind_inv in H as (? & ? & _ & H)).
  unfold plus in H. eapply invoke_ref. exact H.
Qed.

Lemma totalBorrowValueInEth_ref account st d st' :
  totalBorrowValueInEth account st = (Ok d, st') -> next_ref st' = S (ref d).
Proof.
  unfold totalBorrowValueInEth. intros H.
  apply bind_inv in H as (h & st1 & _ & H).
  destruct (negb (truthy h)).
  - apply bigdec_ref in H. tauto.
  - apply bind_inv in H as (tokens & st2 & _ & H).
    unfold reduce in H.
    destruct tokens; try discriminate;
      try (apply bind_inv in H as (? & ? & _ & H); discriminate).
    apply bind_inv in H as (z & st3 & Hz & H).
    apply bigdec_ref in Hz as [_ Hz].
    eapply foldM_ref; [exact addBorrow_ref | exact Hz | exact H].
Qed.

(** [borrowBalanceUnderlying] is the function without its zero test: the
    branch that returns 0 is never taken. *)
Lemma borrowBalanceUnderlying_test_never_holds cToken st :
  borrowBalanceUnderlying cToken st =
  (i <- get cToken "accountBorrowIndex" ;;
   _ <- bigdec i ;;
   _ <- bigdec (JStr "0") ;;
   s <- get cToken "storedBorrowBalance" ;;
   x <- bigdec s ;;
   market <- get cToken "market" ;;
   bi <- get market "borrowIndex" ;;
   y <- multiply x bi ;;
   i' <- get cToken "accountBorrowIndex" ;;
   divide y i' 18) st.
Proof.
  unfold borrowBalanceUnderlying, bind.
  destruct (get cToken "accountBorrowIndex" st) as [[i|e] st1]; [|reflexivity].
  destruct (bigdec i st1) as [[a|e] st2] eqn:Ha; [|reflexivity].
  apply bigdec_ref in Ha as [Ha Hn].
  rewrite bigdec_0. destruct a as [r d]. simpl in Ha, Hn.
  rewrite Hn, loose_eq_fresh. reflexivity.
Qed.

(** The [health] resolver is the resolver without its zero test: the branch
    that returns the collateral undivided is never taken. *)
Lemma health_test_never_holds account st :
  Resolve.health account st =
  (h <- get account "hasBorrowed" ;;
   if negb (truthy h) then ret JNull
   else
     totalBorrow <- totalBorrowValueInEth account ;;
     _ <- bigdec (JStr "0") ;;
     c <- totalCollateralValueInEth account ;;
     q <- divide c (JDec totalBorrow) 18 ;;
     ret (JDec q)) st.
Proof.
  unfold Resolve.health, bind.
  destruct (get account "hasBorrowed" st) as [[h|e] st1]; [|reflexivity].
  destruct (negb (truthy h)); [reflexivity|].
  destruct (totalBorrowValueInEth account st1) as [[b|e] st2] eqn:Hb;
    [|reflexivity].
  apply totalBorrowValueInEth_ref in Hb.
  rewrite bigdec_0. destruct b as [r d]. simpl in Hb.
  rewrite Hb, loose_eq_fresh. reflexivity.
Qed.

(** ** Positions as the upstream returns them *)

Lemma supplyBalanceUnderlying_rejected cToken bal er st :
  at_path cToken ["cTokenBalance"] = Some (JStr bal) ->
  at_path cToken ["market"; "exchangeRate"] = Some (JStr er) ->
  supplyBalanceUnderlying cToken st =
  if numeric bal
  then (Throw TypeError,
        Store (S (next_ref st))
              (calls st ++ [Call Multiply (Obj (next_ref st) (dec_of bal))
                                 (JStr er)]))
  else (Throw InvalidDecimal, st).
Proof.
  intros Hb He.
  apply at_path_field in Hb as (fs & -> & Hb).
  apply at_path_cons in He as (fs' & E & He). injection E as <-.
  apply at_path_field in He as (ms & Em & He).
  unfold supplyBalanceUnderlying.
  rewrite (bind_ok _ _ _ _ _ (get_obj _ _ _)), Hb.
  destruct (numeric bal) eqn:Nb.
  - rewrite (bind_ok _ _ _ _ _ (bigdec_str _ _ Nb)).
    rewrite (bind_ok _ _ _ _ _ (get_obj _ _ _)), Em.
    rewrite (bind_ok _ _ _ _ _ (get_obj _ _ _)), He.
    rewrite multiply_raw. reflexivity.
  - apply bind_throw, bigdec_not_numeric, Nb.
Qed.

Lemma tokenInEth_rejected mkt cf er st :
  at_path mkt ["collateralFactor"] = Some (JStr cf) ->
  at_path mkt ["exchangeRate"] = Some (JStr er) ->
  tokenInEth mkt st =
  if numeric cf
  then (Throw TypeError,
        Store (S (next_ref st))
              (calls st ++ [Call Multiply (Obj (next_ref st) (dec_of cf))
                                 (JStr er)]))
  else (Throw InvalidDecimal, st).
Proof.
  intros Hc He.
  apply at_path_field in Hc as (ms & -> & Hc).
  apply at_path_field in He as (ms' & E & He). injection E as <-.
  unfold tokenInEth.
  rewrite (bind_ok _ _ _ _ _ (get_obj _ _ _)), Hc.
  destruct (numeric cf) eqn:Nc.
  - rewrite (bind_ok _ _ _ _ _ (bigdec_str _ _ Nc)).
    rewrite (bind_ok _ _ _ _ _ (get_obj _ _ _)), He.
    rewrite (bind_throw _ _ _ _ _ (multiply_raw _ _ _)). reflexivity.
  - apply bind_throw, bigdec_not_numeric, Nc.
Qed.

Lemma borrowBalanceUnderlying_rejected cToken s b i st :
  at_path cToken ["storedBorrowBalance"] = Some (JStr s) ->
  at_path cToken ["market"; "borrowIndex"] = Some (JStr b) ->
  at_path cToken ["accountBorrowIndex"] = Some (JStr i) ->
  borrowBalanceUnderlying cToken st =
  if numeric i
  then if numeric s
       then (Throw TypeError,
             Store (3 + next_ref st)
                   (calls st ++ [Call Multiply (Obj (2 + next_ref st) (dec_of s))
                                      (JStr b)]))
       else (Throw InvalidDecimal, Store (2 + next_ref st) (calls st))
  else (Throw InvalidDecimal, st).
Proof.
  intros Hs Hb Hi.
  apply at_path_field in Hs as (fs & -> & Hs).
  apply at_path_cons in Hb as (fs' & E & Hb). injection E as <-.
  apply at_path_field in Hb as (ms & Em & Hb).
  apply at_path_field in Hi as (fs' & E & Hi). injection E as <-.
  rewrite borrowBalanceUnderlying_test_never_holds.
  rewrite (bind_ok _ _ _ _ _ (get_obj _ _ _)), Hi.
  destruct (numeric i) eqn:Ni.
  2:{ apply bind_throw, bigdec_not_numeric, Ni. }
  rewrite (bind_ok _ _ _ _ _ (bigdec_str _ _ Ni)).
  rewrite (bind_ok _ _ _ _ _ (bigdec_0 _)).
  rewrite (bind_ok _ _ _ _ _ (get_obj _ _ _)), Hs.
  destruct (numeric s) eqn:Ns.
  2:{ rewrite (bind_throw _ _ _ _ _ (bigdec_not_numeric _ _ Ns)). reflexivity. }
  rewrite (bind_ok _ _ _ _ _ (bigdec_str _ _ Ns)).
  rewrite (bind_ok _ _ _ _ _ (get_obj _ _ _)), Em.
  rewrite (bind_ok _ _ _ _ _ (get_obj _ _ _)), Hb.
  rewrite (bind_throw _ _ _ _ _ (multiply_raw _ _ _)). reflexivity.
Qed.

(** ** The zero index *)

(** C1 (the code departs from it): with [accountBorrowIndex] equal to 0 the
    test [bigdec(index) == bigdec('0')] compares two distinct objects and
    fails, so [borrowBalanceUnderlying] does not return 0: it goes on to the
    arithmetic on the stored balance, three objects made, and throws. *)
Theorem borrowBalanceUnderlying_zero_index_throws :
  Dec.eqv (dec_of (accountBorrowIndex scenario1)) Dec.zero = true /\
  (a <- bigdec (JStr (accountBorrowIndex scenario1)) ;;
   z <- bigdec (JStr "0") ;;
   ret (loose_eq a z)) store0
  = (Ok false, Store 2 []) /\
  borrowBalanceUnderlying
    (handed Fragment.borrowBalanceUnderlying (js_token scenario1)) store0
  = (Throw TypeError,
     Store 3 [Call Multiply (Obj 2 Dec.zero) (JStr "1")]) /\
  forall st,
    fails (borrowBalanceUnderlying
             (handed Fragment.borrowBalanceUnderlying (js_token scenario1)) st).
Proof.
  repeat split; try reflexivity.
  intros st. exists TypeError.
  rewrite (borrowBalanceUnderlying_rejected _ "0" "1" "0" st); reflexivity.
Qed.

(** C2: for an account with [hasBorrowed] false, [totalBorrowValueInEth]
    returns a fresh decimal 0 without any arithmetic, and the [health]
    resolver returns [null]. *)
Theorem never_borrowed_zero_borrow_null_health (a : Account) (st : store) :
  hasBorrowed a = false ->
  totalBorrowValueInEth
    (handed Fragment.totalBorrowValueInEth (js_account a)) st
  = (Ok (Obj (next_ref st) Dec.zero), Store (S (next_ref st)) (calls st)) /\
  Resolve.health (handed Fragment.health (js_account a)) st = (Ok JNull, st).
Proof.
  destruct a as [id hb ts]. simpl. intros ->. split; reflexivity.
Qed.

Lemma never_borrowed_zero_borrow_null_health_witness :
  hasBorrowed saver = false /\
  totalBorrowValueInEth
    (handed Fragment.totalBorrowValueInEth (js_account saver)) store0
  = (Ok (Obj 0 Dec.zero), Store 1 []) /\
  Resolve.health (handed Fragment.health (js_account saver)) store0
  = (Ok JNull, store0).
Proof.
  split; [reflexivity|].
  apply (never_borrowed_zero_borrow_null_health saver store0). reflexivity.
Defined.

(** C3 (the code departs from it): for an account that has borrowed and
    whose total borrow is 0, the test [totalBorrow == bigdec('0')] compares
    two distinct objects and fails, so the [health] resolver does not return
    the collateral: with no position left it divides the collateral 0 by the
    borrow 0 and throws DivisionByZero; in scenario 3 it throws as well and
    does not return 80. *)
Theorem health_zero_borrow_divides :
  hasBorrowed closed_out = true /\
  value_of (totalBorrowValueInEth
              (handed Fragment.health (js_account closed_out)) store0)
  = Ok Dec.zero /\
  value_of (totalCollateralValueInEth
              (handed Fragment.health (js_account closed_out)) store0)
  = Ok Dec.zero /\
  Resolve.health (handed Fragment.health (js_account closed_out)) store0
  = (Throw DivisionByZero,
     Store 3 [Call (Divide 18) (Obj 2 Dec.zero) (JDec (Obj 0 Dec.zero))]) /\
  hasBorrowed scenario3 = true /\
  spec_totalCollateralValue scenario3 = Dec.mk 800 1 /\
  fst (Resolve.health (handed Fragment.health (js_account scenario3)) store0)
  = Throw TypeError.
Proof. repeat split; vm_compute; reflexivity. Qed.

(** ** Raw strings as operands *)

(** C4 (the code departs from it): in scenario 2 the claim's quotient is
    110.000000000000000000, but [borrowBalanceUnderlying] hands the raw
    string of [market.borrowIndex] to [multiply], which takes a decimal
    value: the call is rejected and no quotient is computed. *)
Theorem borrowBalanceUnderlying_scenario2_throws :
  Dec.is_zero (dec_of (accountBorrowIndex scenario2)) = false /\
  Dec.toString <$> spec_borrowBalanceUnderlying scenario2
  = Some "110.000000000000000000" /\
  borrowBalanceUnderlying
    (handed Fragment.borrowBalanceUnderlying (js_token scenario2)) store0
  = (Throw TypeError,
     Store 3 [Call Multiply (Obj 2 (Dec.mk 100 0)) (JStr "1.1")]).
Proof. repeat split; vm_compute; reflexivity. Qed.

(** C7 (the code departs from it): in scenario 3 the claim's fold is 80.0,
    but [totalCollateralValueInEth] throws at the first position, where
    [tokenInEth] hands the raw string of [market.exchangeRate] to
    [multiply]; the [plus] of the fold is never reached. *)
Theorem totalCollateralValueInEth_scenario3_throws :
  spec_totalCollateralValue scenario3 = Dec.mk 800 1 /\
  totalCollateralValueInEth
    (handed Fragment.totalCollateralValueInEth (js_account scenario3)) store0
  = (Throw TypeError,
     Store 2 [Call Multiply (Obj 1 (Dec.mk 5 1)) (JStr "1")]) /\
  totalCollateralValueInEth
    (handed Fragment.health (js_account scenario3)) store0
  = (Throw TypeError,
     Store 2 [Call Multiply (Obj 1 (Dec.mk 5 1)) (JStr "1")]).
Proof. repeat split; vm_compute; reflexivity. Qed.

(** C8 (the code departs from it): only the first field of an arithmetic
    chain is parsed, by [bigdec]; the next one is handed to the method as the
    raw string.  In [supplyBalanceUnderlying], [borrowBalanceUnderlying] and
    [totalCollateralValueInEth] the first arithmetic call is a [multiply]
    whose operand is a raw upstream string, and it is rejected. *)
Theorem raw_strings_reach_the_arithmetic :
  calls_of (supplyBalanceUnderlying
              (handed Fragment.supplyBalanceUnderlying (js_token scenario1)))
           store0
  = [Call Multiply (Obj 0 (Dec.mk 10 0)) (JStr "2")] /\
  calls_of (borrowBalanceUnderlying
              (handed Fragment.borrowBalanceUnderlying (js_token scenario2)))
           store0
  = [Call Multiply (Obj 2 (Dec.mk 100 0)) (JStr "1.1")] /\
  calls_of (totalCollateralValueInEth
              (handed Fragment.totalCollateralValueInEth (js_account scenario3)))
           store0
  = [Call Multiply (Obj 1 (Dec.mk 5 1)) (JStr "1")] /\
  forallb money_operand
    (calls_of (supplyBalanceUnderlying
                 (handed Fragment.supplyBalanceUnderlying (js_token scenario1)))
              store0)
  = false /\
  fst (supplyBalanceUnderlying
         (handed Fragment.supplyBalanceUnderlying (js_token scenario1)) store0)
  = Throw TypeError.
Proof. repeat split; vm_compute; reflexivity. Qed.

(** ** Fragments and the fields the resolvers read *)

Lemma foldM_ext {A B} (f : A -> B -> M A) (l1 l2 : list B) :
  Forall2 (fun x1 x2 => forall acc st, f acc x1 st = f acc x2 st) l1 l2 ->
  forall acc st, foldM f l1 acc st = foldM f l2 acc st.
Proof.
  induction 1 as [|x1 x2 l1 l2 Hx _ IH]; intros acc st; [reflexivity|].
  cbn [foldM]. unfold bind. rewrite Hx.
  destruct (f acc x2 st) as [[acc'|e] st1]; [apply IH | reflexivity].
Qed.

Lemma foldM_map_ext {A} (f : A -> jsval -> M A) (N : jsval -> jsval) items :
  (forall acc x st, f acc (N x) st = f acc x st) ->
  forall acc st, foldM f (map N items) acc st = foldM f items acc st.
Proof.
  intros H. apply foldM_ext.
  induction items as [|x items IH]; cbn [map]; constructor; auto.
Qed.


Lemma requested_account_fragments :
  requested Fragment.health = selection_set Fragment.health /\
  requested Fragment.totalBorrowValueInEth
  = selection_set Fragment.totalBorrowValueInEth /\
  requested Fragment.totalCollateralValueInEth
  = selection_set Fragment.totalCollateralValueInEth.
Proof. repeat split; vm_compute; reflexivity. Qed.

(** Both sides read the same fields: the reads are laid open, then the
    cases of what [market] holds are gone through. *)
Ltac fetched E :=
  unfold handed; rewrite E;
  cbn [fetch map fetch_field response_key leaf selection_set
       Fragment.health Fragment.totalBorrowValueInEth
       Fragment.totalCollateralValueInEth].

Ltac lay_open :=
  cbv [Resolve.supplyBalanceUnderlying Resolve.supplyBalanceETH
       Resolve.lifetimeSupplyInterestAccrued Resolve.borrowBalanceUnderlying
       Resolve.borrowBalanceETH Resolve.lifetimeBorrowInterestAccrued
       supplyBalanceUnderlying supplyBalanceETH borrowBalanceUnderlying
       borrowBalanceETH addBorrow addCollateral tokenInEth bind get ret throw];
  cbn [lookup_field String.eqb Ascii.eqb Bool.eqb].



Ltac same_item :=
  let x := fresh "x" in
  intros ? x ?; destruct x; try reflexivity; lay_open;
  match goal with
  | |- context [lookup_field "market" ?fs] =>
      destruct (lookup_field "market" fs); reflexivity
  end.

Lemma totalBorrowValueInEth_on_requested fs st :
  totalBorrowValueInEth (handed Fragment.health (JObj fs)) st
  = totalBorrowValueInEth (aliased fs) st /\
  totalBorrowValueInEth (handed Fragment.totalBorrowValueInEth (JObj fs)) st
  = totalBorrowValueInEth (aliased fs) st.
Proof.
  destruct requested_account_fragments as (E1 & E2 & E3).
  split.
  - fetched E1. unfold aliased, totalBorrowValueInEth.
    rewrite !(bind_ok _ _ _ _ _ (get_obj _ _ _)).
    cbn [lookup_field String.eqb Ascii.eqb Bool.eqb].
    destruct (negb (truthy (lookup_field "hasBorrowed" fs))); [reflexivity|].
    rewrite !(bind_ok _ _ _ _ _ (get_obj _ _ _)).
    cbn [lookup_field String.eqb Ascii.eqb Bool.eqb].
    destruct (lookup_field "tokens" fs); try reflexivity.
    unfold reduce. rewrite !(bind_ok _ _ _ _ _ (bigdec_0 _)).
    apply foldM_map_ext. same_item.
  - fetched E2. unfold aliased, totalBorrowValueInEth.
    rewrite !(bind_ok _ _ _ _ _ (get_obj _ _ _)).
    cbn [lookup_field String.eqb Ascii.eqb Bool.eqb].
    destruct (negb (truthy (lookup_field "hasBorrowed" fs))); [reflexivity|].
    rewrite !(bind_ok _ _ _ _ _ (get_obj _ _ _)).
    cbn [lookup_field String.eqb Ascii.eqb Bool.eqb].
    destruct (lookup_field "tokens" fs); try reflexivity.
    unfold reduce. rewrite !(bind_ok _ _ _ _ _ (bigdec_0 _)).
    apply foldM_map_ext. same_item.
Qed.

Lemma totalCollateralValueInEth_on_requested fs st :
  totalCollateralValueInEth (handed Fragment.health (JObj fs)) st
  = totalCollateralValueInEth (aliased fs) st /\
  totalCollateralValueInEth
    (handed Fragment.totalCollateralValueInEth (JObj fs)) st
  = totalCollateralValueInEth (aliased fs) st.
Proof.
  destruct requested_account_fragments as (E1 & E2 & E3).
  split.
  - fetched E1. unfold aliased, totalCollateralValueInEth.
    rewrite !(bind_ok _ _ _ _ _ (get_obj _ _ _)).
    cbn [lookup_field String.eqb Ascii.eqb Bool.eqb].
    destruct (lookup_field "tokens" fs); try reflexivity.
    unfold reduce. rewrite !(bind_ok _ _ _ _ _ (bigdec_0 _)).
    apply foldM_map_ext. same_item.
  - fetched E3. unfold aliased, totalCollateralValueInEth.
    rewrite !(bind_ok _ _ _ _ _ (get_obj _ _ _)).
    cbn [lookup_field String.eqb Ascii.eqb Bool.eqb].
    destruct (lookup_field "tokens" fs); try reflexivity.
    unfold reduce. rewrite !(bind_ok _ _ _ _ _ (bigdec_0 _)).
    apply foldM_map_ext. same_item.
Qed.

Lemma hasBorrowed_on_requested fs st :
  get (handed Fragment.health (JObj fs)) "hasBorrowed" st
  = get (aliased fs) "hasBorrowed" st.
Proof. reflexivity. Qed.

Lemma health_on_requested fs st :
  Resolve.health (handed Fragment.health (JObj fs)) st
  = Resolve.health (aliased fs) st.
Proof.
  unfold Resolve.health, bind. rewrite hasBorrowed_on_requested.
  destruct (get (aliased fs) "hasBorrowed" st) as [[h|e] st1]; [|reflexivity].
  destruct (negb (truthy h)); [reflexivity|].
  rewrite (proj1 (totalBorrowValueInEth_on_requested fs st1)).
  destruct (totalBorrowValueInEth (aliased fs) st1) as [[b|e] st2];
    [|reflexivity].
  destruct (bigdec (JStr "0") st2) as [[z|e] st3]; [|reflexivity].
  destruct (loose_eq b z);
    rewrite (proj1 (totalCollateralValueInEth_on_requested fs st3));
    reflexivity.
Qed.



(** ** Schema extension *)

(** C6 (the code departs from it): resolvers are registered for nine fields
    and [customSchema] declares seven of them, each [BigDecimal!];
    [Account.health] and [AccountCToken.borrowBalanceETH] have a resolver
    and no declaration. *)
Theorem health_and_borrowBalanceETH_undeclared :
  map (fun '(ty, f) => (ty, f, declared customSchema ty f)) registered
  = [("Account", "health", None);
     ("Account", "totalBorrowValueInEth",
      Some (Decl "totalBorrowValueInEth" "BigDecimal" true));
     ("Account", "totalCollateralValueInEth",
      Some (Decl "totalCollateralValueInEth" "BigDecimal" true));
     ("AccountCToken", "supplyBalanceUnderlying",
      Some (Decl "supplyBalanceUnderlying" "BigDecimal" true));
     ("AccountCToken", "supplyBalanceETH",
      Some (Decl "supplyBalanceETH" "BigDecimal" true));
     ("AccountCToken", "lifetimeSupplyInterestAccrued",
      Some (Decl "lifetimeSupplyInterestAccrued" "BigDecimal" true));
     ("AccountCToken", "borrowBalanceUnderlying",
      Some (Decl "borrowBalanceUnderlying" "BigDecimal" true));
     ("AccountCToken", "borrowBalanceETH", None);
     ("AccountCToken", "lifetimeBorrowInterestAccrued",
      Some (Decl "lifetimeBorrowInterestAccrued" "BigDecimal" true))] /\
  undeclared = [("Account", "health"); ("AccountCToken", "borrowBalanceETH")].
Proof. split; vm_compute; reflexivity. Qed.

(** ** Operation split *)

(** C9: an operation goes to the WebSocket link exactly when its main
    definition is an OperationDefinition of kind subscription, and to the
    HTTP link for any other main definition, a query or a mutation among
    them; the choice is a function of the operation alone. *)
Theorem link_routes_subscriptions
        (getMainDefinition : list DefinitionNode -> option DefinitionNode)
        (op : Operation) :
  (link getMainDefinition op = Some wsLink <->
   exists d, getMainDefinition (query op) = Some d /\
             kind d = "OperationDefinition" /\
             operation d = Some "subscription") /\
  (forall d,
      getMainDefinition (query op) = Some d ->
      kind d <> "OperationDefinition" \/ operation d <> Some "subscription" ->
      link getMainDefinition op = Some httpLink) /\
  (forall d,
      getMainDefinition (query op) = Some d ->
      operation d = Some "query" \/ operation d = Some "mutation" ->
      link getMainDefinition op = Some httpLink).
Proof.
  assert (Hif : forall d,
             getMainDefinition (query op) = Some d ->
             kind d <> "OperationDefinition" \/
             operation d <> Some "subscription" ->
             link getMainDefinition op = Some httpLink).
  { intros d Hd Hne. unfold link, split, is_subscription. rewrite Hd. simpl.
    destruct Hne as [Hk|Ho].
    - apply String.eqb_neq in Hk. rewrite Hk. reflexivity.
    - rewrite (bool_decide_eq_false_2 _ Ho), andb_false_r. reflexivity. }
  split; [|split].
  - unfold link, split, is_subscription.
    destruct (getMainDefinition (query op)) as [d|]; simpl.
    + split.
      * intros H. exists d.
        destruct (String.eqb (kind d) "OperationDefinition") eqn:Hk;
          [|discriminate].
        destruct (bool_decide (operation d = Some "subscription")) eqn:Ho;
          [|discriminate].
        apply String.eqb_eq in Hk. apply bool_decide_eq_true in Ho. auto.
      * intros (d' & [= <-] & Hk & Ho).
        apply String.eqb_eq in Hk. rewrite Hk.
        rewrite (bool_decide_eq_true_2 _ Ho). reflexivity.
    + split; [discriminate|]. intros (d' & Hd & _). discriminate.
  - exact Hif.
  - intros d Hd Hq. apply (Hif d Hd). right.
    destruct Hq as [-> | ->]; discriminate.
Qed.

Lemma link_routes_subscriptions_witness :
  first_operation (query a_query)
  = Some {| kind := "OperationDefinition"; operation := Some "query" |} /\
  link first_operation a_query = Some httpLink /\
  link first_operation a_subscription = Some wsLink.
Proof.
  split; [reflexivity|]. split.
  - apply (proj2 (proj2 (link_routes_subscriptions first_operation a_query))
             {| kind := "OperationDefinition"; operation := Some "query" |});
      [reflexivity | left; reflexivity].
  - apply (proj1 (link_routes_subscriptions first_operation a_subscription)).
    eexists. repeat split; reflexivity.
Defined.

(** ** Header filter *)

(** C10, as stated, fails: a request that carries [x_proxy_id] with the
    empty value is handed to the next handler and answered by it. *)
Lemma empty_header_passes :
  headers empty_proxy_id !! "x_proxy_id" = Some "" /\
  rejectBadHeaders empty_proxy_id fresh_response answer
  = {| statusCode := 200; sent := Some "{}" |}.
Proof. split; reflexivity. Qed.

Lemma header_truthy req name :
  truthy (header req name) = true <-> nonempty_header req name.
Proof.
  unfold header, nonempty_header.
  destruct (headers req !! name) as [v|]; simpl.
  - rewrite negb_true_iff, String.eqb_neq. split.
    + intros H. exists v. auto.
    + intros (v' & [= <-] & H). exact H.
  - split; [discriminate|]. intros (v & Hv & _). discriminate.
Qed.

(** C10, amended: a request whose [challenge-bypass-token] or [x_proxy_id]
    header has a value that is not empty is answered 400 [Bad Request] and
    nothing after the filter runs; every other request is handed to the next
    handler as it came. *)
Theorem rejectBadHeaders_filters
        (req : Request) (res : Response) (next : Handler)
        (later : list Middleware) (graphql : Handler) :
  (nonempty_header req "challenge-bypass-token" \/
   nonempty_header req "x_proxy_id" ->
   rejectBadHeaders req res next = {| statusCode := 400; sent := Some "Bad Request" |} /\
   app later graphql req res = {| statusCode := 400; sent := Some "Bad Request" |}) /\
  (~ nonempty_header req "challenge-bypass-token" ->
   ~ nonempty_header req "x_proxy_id" ->
   rejectBadHeaders req res next = next req res /\
   app later graphql req res = chain later graphql req res).
Proof.
  unfold app. cbn [chain]. unfold rejectBadHeaders. split.
  - intros H.
    assert (truthy (header req "challenge-bypass-token")
            || truthy (header req "x_proxy_id") = true) as ->.
    { apply orb_true_iff. rewrite !header_truthy. exact H. }
    split; reflexivity.
  - intros Ha Hb.
    assert (truthy (header req "challenge-bypass-token")
            || truthy (header req "x_proxy_id") = false) as ->.
    { apply orb_false_iff. split; apply not_true_is_false;
        rewrite header_truthy; assumption. }
    split; reflexivity.
Qed.

Lemma rejectBadHeaders_filters_witness :
  nonempty_header proxied "x_proxy_id" /\
  rejectBadHeaders proxied fresh_response answer
  = {| statusCode := 400; sent := Some "Bad Request" |}.
Proof.
  assert (H : nonempty_header proxied "x_proxy_id").
  { exists "p1". split; [reflexivity | discriminate]. }
  split; [exact H|].
  apply (proj1 (rejectBadHeaders_filters proxied fresh_response answer [] answer)).
  right. exact H.
Defined.


(** * Further properties of the derived fields *)

(** ** Fragments that cover their resolvers *)


(** ** Supply side *)

Lemma token_fields (t : AccountCToken) :
  at_path (js_token t) ["cTokenBalance"] = Some (JStr (cTokenBalance t)) /\
  at_path (js_token t) ["market"; "exchangeRate"]
  = Some (JStr (exchangeRate (market t))) /\
  at_path (js_token t) ["storedBorrowBalance"]
  = Some (JStr (storedBorrowBalance t)) /\
  at_path (js_token t) ["market"; "borrowIndex"]
  = Some (JStr (borrowIndex (market t))) /\
  at_path (js_token t) ["accountBorrowIndex"]
  = Some (JStr (accountBorrowIndex t)).
Proof. repeat split. Qed.

Lemma supplyBalanceUnderlying_fails (t : AccountCToken) (st : store) :
  fails (supplyBalanceUnderlying (js_token t) st).
Proof.
  destruct (token_fields t) as (Hb & He & _).
  unfold fails. rewrite (supplyBalanceUnderlying_rejected _ _ _ st Hb He).
  destruct (numeric (cTokenBalance t)); eexists; reflexivity.
Qed.

(** X1: on a position as the upstream returns it, where every number is a
    string, the three supply resolvers never return a value.
    [supplyBalanceUnderlying] parses [cTokenBalance] and hands the raw string
    of [market.exchangeRate] to [multiply]: that one call is all the
    arithmetic it reaches, and none when the balance is not a numeral. *)
Theorem supply_resolvers_never_resolve (t : AccountCToken) (st : store) :
  fails (Resolve.supplyBalanceUnderlying (js_token t) st) /\
  fails (Resolve.supplyBalanceETH (js_token t) st) /\
  fails (Resolve.lifetimeSupplyInterestAccrued (js_token t) st) /\
  calls_of (supplyBalanceUnderlying (js_token t)) st
  = if numeric (cTokenBalance t)
    then [Call Multiply (Obj (next_ref st) (dec_of (cTokenBalance t)))
               (JStr (exchangeRate (market t)))]
    else [].
Proof.
  pose proof (supplyBalanceUnderlying_fails t st) as F.
  split; [|split; [|split]].
  - apply bind_fails, F.
  - apply bind_fails. unfold supplyBalanceETH. apply bind_fails, F.
  - apply bind_fails, F.
  - destruct (token_fields t) as (Hb & He & _).
    unfold calls_of.
    rewrite (supplyBalanceUnderlying_rejected _ _ _ st Hb He).
    destruct (numeric (cTokenBalance t)); cbn [snd calls].
    + apply drop_app_length.
    + apply drop_all.
Qed.

(** ** Borrow side *)

Lemma get_same o k st v st1 st' v' st1' :
  get o k st = (Ok v, st1) -> get o k st' = (Ok v', st1') -> v = v'.
Proof. destruct o; cbv [get ret throw]; congruence. Qed.

Lemma borrowBalanceUnderlying_fails cToken st :
  fails (borrowBalanceUnderlying cToken st).
Proof.
  unfold fails.
  destruct (borrowBalanceUnderlying cToken st) as [[d|e] st'] eqn:H;
    [exfalso | eauto].
  rewrite borrowBalanceUnderlying_test_never_holds in H.
  apply bind_inv in H as (i & st1 & Gi & H).
  apply bind_inv in H as (a & st2 & Ba & H).
  apply bigdec_inv in Ba as (s & -> & _ & _).
  do 6 (apply bind_inv in H as (? & ? & _ & H)).
  apply bind_inv in H as (i' & st9 & Gi' & H).
  rewrite <- (get_same _ _ _ _ _ _ _ _ Gi Gi') in H.
  unfold divide in H. rewrite invoke_raw in H. discriminate.
Qed.

(** X12: on a position as the upstream returns it, where every number is a
    string, [borrowBalanceUnderlying] never returns a value, whatever the
    index, and neither do the three resolvers that call it: the one
    arithmetic call it reaches is the [multiply] handed the raw string of
    [market.borrowIndex], and none when [accountBorrowIndex] or
    [storedBorrowBalance] is not a numeral. *)
Theorem borrowBalanceUnderlying_never_returns
        (t : AccountCToken) (st : store) :
  fails (borrowBalanceUnderlying (js_token t) st) /\
  fails (Resolve.borrowBalanceUnderlying (js_token t) st) /\
  fails (Resolve.borrowBalanceETH (js_token t) st) /\
  fails (Resolve.lifetimeBorrowInterestAccrued (js_token t) st) /\
  calls_of (borrowBalanceUnderlying (js_token t)) st
  = if numeric (accountBorrowIndex t) && numeric (storedBorrowBalance t)
    then [Call Multiply
               (Obj (2 + next_ref st) (dec_of (storedBorrowBalance t)))
               (JStr (borrowIndex (market t)))]
    else [].
Proof.
  destruct (token_fields t) as (_ & _ & Hs & Hb & Hi).
  pose proof (borrowBalanceUnderlying_rejected _ _ _ _ st Hs Hb Hi) as R.
  assert (F : fails (borrowBalanceUnderlying (js_token t) st)).
  { unfold fails. rewrite R.
    destruct (numeric (accountBorrowIndex t)),
             (numeric (storedBorrowBalance t)); eexists; reflexivity. }
  split; [exact F|]. split; [|split; [|split]].
  - apply bind_fails, F.
  - apply bind_fails. unfold borrowBalanceETH. apply bind_fails, F.
  - apply bind_fails, F.
  - unfold calls_of. rewrite R.
    destruct (numeric (accountBorrowIndex t)),
             (numeric (storedBorrowBalance t)); cbn [andb snd calls];
      solve [apply drop_app_length | apply drop_all].
Qed.

(** ** Account totals *)

Lemma addBorrow_fails acc token st : fails (addBorrow acc token st).
Proof.
  unfold addBorrow.
  do 3 (apply bind_fails_after; intros ? ? _).
  apply bind_fails, borrowBalanceUnderlying_fails.
Qed.

Lemma totalBorrowValueInEth_inv account st b st' :
  totalBorrowValueInEth account st = (Ok b, st') ->
  b = Obj (next_ref st) Dec.zero /\
  st' = Store (S (next_ref st)) (calls st).
Proof.
  unfold totalBorrowValueInEth. intros H.
  apply bind_inv in H as (h & st1 & Gh & H).
  assert (st1 = st) as ->.
  { destruct account; cbv [get ret throw] in Gh; congruence. }
  destruct (negb (truthy h)).
  - rewrite bigdec_0 in H. injection H as <- <-. auto.
  - apply bind_inv in H as (tokens & st2 & Gt & H).
    assert (st2 = st) as ->.
    { destruct account; cbv [get ret throw] in Gt; congruence. }
    unfold reduce in H.
    destruct tokens; try discriminate;
      try (apply bind_inv in H as (? & ? & _ & H); discriminate).
    rewrite (bind_ok _ _ _ _ _ (bigdec_0 _)) in H.
    destruct items as [|x rest].
    + injection H as <- <-. auto.
    + exfalso. cbn [foldM] in H.
      apply bind_inv in H as (acc & st3 & A & _).
      destruct (addBorrow_fails (Obj (next_ref st) Dec.zero) x
                  (Store (S (next_ref st)) (calls st))) as [e E].
      rewrite A in E. discriminate.
Qed.

Lemma borrower_with_position_fails fs x rest st :
  truthy (lookup_field "hasBorrowed" fs) = true ->
  lookup_field "___tokens" fs = JArr (x :: rest) ->
  fails (totalBorrowValueInEth (JObj fs) st).
Proof.
  intros Hh Ht. unfold totalBorrowValueInEth.
  rewrite (bind_ok _ _ _ _ _ (get_obj _ _ _)), Hh. cbn [negb].
  rewrite (bind_ok _ _ _ _ _ (get_obj _ _ _)), Ht. unfold reduce.
  rewrite (bind_ok _ _ _ _ _ (bigdec_0 _)). cbn [foldM].
  apply bind_fails, addBorrow_fails.
Qed.

(** X8: for an account that has borrowed, [totalBorrowValueInEth] returns
    a fresh decimal 0, with no arithmetic, when the account holds no
    position, and throws when it holds one. *)
Theorem totalBorrowValueInEth_of_borrower (a : Account) (st : store) :
  hasBorrowed a = true ->
  match tokens a with
  | [] =>
      totalBorrowValueInEth
        (handed Fragment.totalBorrowValueInEth (js_account a)) st
      = (Ok (Obj (next_ref st) Dec.zero), Store (S (next_ref st)) (calls st))
  | _ :: _ =>
      fails (totalBorrowValueInEth
               (handed Fragment.totalBorrowValueInEth (js_account a)) st) /\
      fails (Resolve.totalBorrowValueInEth
               (handed Fragment.totalBorrowValueInEth (js_account a)) st)
  end.
Proof.
  destruct a as [id hb [|t ts]]; simpl; intros ->; [reflexivity|].
  assert (F : fails (totalBorrowValueInEth
                       (handed Fragment.totalBorrowValueInEth
                          (js_account (Build_Account id true (t :: ts)))) st)).
  { unfold js_account. cbn [tokens account_id hasBorrowed map].
    match goal with
    | |- context [handed _ (JObj ?fs)] =>
        rewrite (proj2 (totalBorrowValueInEth_on_requested fs st))
    end.
    eapply borrower_with_position_fails; reflexivity. }
  split; [exact F | apply bind_fails, F].
Qed.

Lemma totalBorrowValueInEth_of_borrower_witness :
  hasBorrowed borrower = true /\
  fails (Resolve.totalBorrowValueInEth
           (handed Fragment.totalBorrowValueInEth (js_account borrower))
           store0) /\
  hasBorrowed closed_out = true /\
  totalBorrowValueInEth
    (handed Fragment.totalBorrowValueInEth (js_account closed_out)) store0
  = (Ok (Obj 0 Dec.zero), Store 1 []).
Proof.
  split; [reflexivity|]. split; [|split; [reflexivity|]].
  - apply (totalBorrowValueInEth_of_borrower borrower store0). reflexivity.
  - apply (totalBorrowValueInEth_of_borrower closed_out store0). reflexivity.
Defined.

Lemma health_inv account st v st' :
  Resolve.health account st = (Ok v, st') -> v = JNull /\ st' = st.
Proof.
  rewrite health_test_never_holds. intros H.
  apply bind_inv in H as (h & st1 & Gh & H).
  assert (st1 = st) as ->.
  { destruct account; cbv [get ret throw] in Gh; congruence. }
  destruct (negb (truthy h)).
  - injection H as <- <-. auto.
  - exfalso.
    apply bind_inv in H as (b & st2 & B & H).
    apply totalBorrowValueInEth_inv in B as [-> ->].
    apply bind_inv in H as (z & st3 & _ & H).
    apply bind_inv in H as (c & st4 & _ & H).
    apply bind_inv in H as (q & st5 & D & _).
    unfold divide, invoke in D.
    apply bind_inv in D as (_ & st6 & _ & D).
    apply bind_inv in D as (d & st7 & O & D).
    injection O as <- <-. discriminate.
Qed.

Lemma health_of_flagged_fails fs st :
  truthy (lookup_field "hasBorrowed" fs) = true ->
  fails (Resolve.health (JObj fs) st).
Proof.
  intros Hh. unfold fails.
  destruct (Resolve.health (JObj fs) st) as [[v|e] st'] eqn:H; [|eauto].
  exfalso. pose proof H as H'. apply health_inv in H' as [-> ->].
  rewrite health_test_never_holds in H.
  rewrite (bind_ok _ _ _ _ _ (get_obj _ _ _)), Hh in H. cbn [negb] in H.
  do 4 (apply bind_inv in H as (? & ? & _ & H)).
  discriminate.
Qed.

(** X13: for every account, the [health] resolver never returns a number:
    it returns [null], the store untouched, when [hasBorrowed] is false, and
    it throws when [hasBorrowed] is true, with DivisionByZero when the
    account holds no position. *)
Theorem health_never_returns_a_number (a : Account) (st : store) :
  let r := Resolve.health (handed Fragment.health (js_account a)) st in
  if hasBorrowed a
  then match tokens a with
       | [] => fst r = Throw DivisionByZero
       | _ :: _ => fails r
       end
  else r = (Ok JNull, st).
Proof.
  destruct a as [id [|] ts]; cbn [hasBorrowed tokens]; [|reflexivity].
  destruct ts as [|t ts].
  - rewrite health_test_never_holds. reflexivity.
  - unfold js_account. cbn [tokens account_id hasBorrowed].
    rewrite health_on_requested. unfold aliased.
    apply health_of_flagged_fails. reflexivity.
Qed.

Lemma addCollateral_rejected acc (t : AccountCToken) st :
  addCollateral acc (js_token t) st =
  if numeric (collateralFactor (market t))
  then (Throw TypeError,
        Store (S (next_ref st))
              (calls st ++
               [Call Multiply
                     (Obj (next_ref st) (dec_of (collateralFactor (market t))))
                     (JStr (exchangeRate (market t)))]))
  else (Throw InvalidDecimal, st).
Proof.
  unfold addCollateral, js_token.
  rewrite (bind_ok _ _ _ _ _ (get_obj _ _ _)).
  cbn [lookup_field String.eqb Ascii.eqb Bool.eqb].
  pose proof (tokenInEth_rejected (js_market (market t))
                (collateralFactor (market t)) (exchangeRate (market t))
                st eq_refl eq_refl) as R.
  destruct (numeric (collateralFactor (market t)));
    rewrite (bind_throw _ _ _ _ _ R); reflexivity.
Qed.

(** X15: [totalCollateralValueInEth] returns a fresh decimal 0, with no
    arithmetic, for an account without positions; for any other account it
    throws at the first position: [tokenInEth] parses [collateralFactor] and
    hands the raw string of [market.exchangeRate] to [multiply], the only
    call made, and none when the factor is not a numeral. *)
Theorem totalCollateralValueInEth_stops_at_first_position
        (a : Account) (st : store) :
  let run :=
    totalCollateralValueInEth
      (handed Fragment.totalCollateralValueInEth (js_account a)) in
  match tokens a with
  | [] =>
      run st
      = (Ok (Obj (next_ref st) Dec.zero), Store (S (next_ref st)) (calls st))
  | t :: _ =>
      fails (run st) /\
      calls_of run st
      = if numeric (collateralFactor (market t))
        then [Call Multiply
                   (Obj (1 + next_ref st)
                        (dec_of (collateralFactor (market t))))
                   (JStr (exchangeRate (market t)))]
        else []
  end.
Proof.
  intros run. subst run.
  destruct a as [id hb [|t ts]]; [reflexivity|].
  unfold js_account. cbn [tokens account_id hasBorrowed map].
  assert (E : totalCollateralValueInEth
                (handed Fragment.totalCollateralValueInEth
                   (JObj [("id", JStr id); ("hasBorrowed", JBool hb);
                          ("tokens", JArr (js_token t :: map js_token ts))]))
                st
              = if numeric (collateralFactor (market t))
                then (Throw TypeError,
                      Store (2 + next_ref st)
                            (calls st ++
                             [Call Multiply
                                   (Obj (1 + next_ref st)
                                        (dec_of (collateralFactor (market t))))
                                   (JStr (exchangeRate (market t)))]))
                else (Throw InvalidDecimal,
                      Store (S (next_ref st)) (calls st))).
  { match goal with
    | |- context [handed _ (JObj ?fs)] =>
        rewrite (proj2 (totalCollateralValueInEth_on_requested fs st))
    end.
    unfold aliased, totalCollateralValueInEth.
    rewrite (bind_ok _ _ _ _ _ (get_obj _ _ _)).
    cbn [lookup_field String.eqb Ascii.eqb Bool.eqb]. unfold reduce.
    rewrite (bind_ok _ _ _ _ _ (bigdec_0 _)). cbn [foldM].
    pose proof (addCollateral_rejected (Obj (next_ref st) Dec.zero) t
                  (Store (S (next_ref st)) (calls st))) as R.
    cbn [next_ref calls] in R.
    destruct (numeric (collateralFactor (market t)));
      rewrite (bind_throw _ _ _ _ _ R); reflexivity. }
  unfold fails, calls_of. rewrite E.
  destruct (numeric (collateralFactor (market t))); cbn [fst snd calls].
  - split; [eauto | apply drop_app_length].
  - split; [eauto | apply drop_all].
Qed.

(** ** Startup configuration *)

Lemma env_var_truthy env name :
  truthy (env_var env name) = true <-> is_set env name.
Proof.
  unfold env_var, is_set.
  destruct (env !! name) as [v|]; simpl.
  - rewrite negb_true_iff, String.eqb_neq. split.
    + intros H. exists v. auto.
    + intros (v' & [= <-] & H). exact H.
  - split; [discriminate|]. intros (v & Hv & _). discriminate.
Qed.

(** X16: the module starts only when SUBGRAPH_QUERY_ENDPOINT and
    SUBGRAPH_SUBSCRIPTION_ENDPOINT are both set to a value that is not empty,
    and then with exactly these values; otherwise it throws, and the message
    names the query endpoint whenever that one is missing or empty. *)
Theorem endpoints_required (env : gmap string string) :
  (forall q s,
      endpoints env = inr (JStr q, JStr s) <->
      (env !! "SUBGRAPH_QUERY_ENDPOINT" = Some q /\ q <> "") /\
      (env !! "SUBGRAPH_SUBSCRIPTION_ENDPOINT" = Some s /\ s <> "")) /\
  (~ is_set env "SUBGRAPH_QUERY_ENDPOINT" ->
   endpoints env
   = inl "Environment variable SUBGRAPH_QUERY_ENDPOINT is not set") /\
  (is_set env "SUBGRAPH_QUERY_ENDPOINT" ->
   ~ is_set env "SUBGRAPH_SUBSCRIPTION_ENDPOINT" ->
   endpoints env
   = inl "Environment variable SUBGRAPH_SUBSCRIPTION_ENDPOINT is not set").
Proof.
  unfold endpoints.
  pose proof (env_var_truthy env "SUBGRAPH_QUERY_ENDPOINT") as Tq.
  pose proof (env_var_truthy env "SUBGRAPH_SUBSCRIPTION_ENDPOINT") as Ts.
  split; [|split].
  - intros q s. unfold env_var in *. unfold is_set in *.
    destruct (env !! "SUBGRAPH_QUERY_ENDPOINT") as [q'|];
      [|simpl; split; [discriminate | intros [[? _] _]; discriminate]].
    destruct (truthy (JStr q')) eqn:Eq; cbn [negb].
    + destruct (env !! "SUBGRAPH_SUBSCRIPTION_ENDPOINT") as [s'|];
        [|simpl; split; [discriminate | intros [_ [? _]]; discriminate]].
      destruct (truthy (JStr s')) eqn:Es; cbn [negb].
      * apply proj1 in Tq. apply proj1 in Ts.
        destruct (Tq eq_refl) as (v1 & [= <-] & Hq).
        destruct (Ts eq_refl) as (v2 & [= <-] & Hs).
        split.
        -- intros [= <- <-]. auto.
        -- intros [[[= <-] _] [[= <-] _]]. reflexivity.
      * split; [discriminate|]. intros [_ [[= <-] Hs]].
        simpl in Es. apply negb_false_iff, String.eqb_eq in Es. contradiction.
    + split; [discriminate|]. intros [[[= <-] Hq] _].
      simpl in Eq. apply negb_false_iff, String.eqb_eq in Eq. contradiction.
  - intros Hq. rewrite <- Tq in Hq. apply not_true_is_false in Hq.
    rewrite Hq. reflexivity.
  - intros Hq Hs. rewrite <- Tq in Hq. rewrite <- Ts in Hs.
    apply not_true_is_false in Hs. rewrite Hq, Hs. reflexivity.
Qed.

Lemma endpoints_required_witness :
  ~ is_set (delete "SUBGRAPH_QUERY_ENDPOINT" an_env) "SUBGRAPH_QUERY_ENDPOINT" /\
  endpoints (delete "SUBGRAPH_QUERY_ENDPOINT" an_env)
  = inl "Environment variable SUBGRAPH_QUERY_ENDPOINT is not set" /\
  endpoints an_env
  = inr (JStr "http://node/subgraphs/name/lodestar",
         JStr "ws://node/subgraphs/name/lodestar").
Proof.
  assert (H : ~ is_set (delete "SUBGRAPH_QUERY_ENDPOINT" an_env)
                "SUBGRAPH_QUERY_ENDPOINT").
  { intros (v & Hv & _). vm_compute in Hv. discriminate. }
  split; [exact H|]. split.
  - apply (proj1 (proj2 (endpoints_required
                           (delete "SUBGRAPH_QUERY_ENDPOINT" an_env)))).
    exact H.
  - apply (proj1 (endpoints_required an_env)).
    repeat split; try reflexivity; discriminate.
Defined.

(** ** Header filter *)

(** X17: [rejectBadHeaders] looks at the two headers only: two requests
    that agree on [challenge-bypass-token] and on [x_proxy_id] are both
    rejected or both handed on, whatever their other headers, url and
    body. *)
Theorem rejectBadHeaders_looks_at_two_headers
        (req1 req2 : Request) (res : Response) (next : Handler) :
  headers req1 !! "challenge-bypass-token"
  = headers req2 !! "challenge-bypass-token" ->
  headers req1 !! "x_proxy_id" = headers req2 !! "x_proxy_id" ->
  (rejectBadHeaders req1 res next
   = {| statusCode := 400; sent := Some "Bad Request" |} /\
   rejectBadHeaders req2 res next
   = {| statusCode := 400; sent := Some "Bad Request" |}) \/
  (rejectBadHeaders req1 res next = next req1 res /\
   rejectBadHeaders req2 res next = next req2 res).
Proof.
  intros Hc Hp. unfold rejectBadHeaders, header. rewrite Hc, Hp.
  destruct (truthy _ || truthy _); [left | right]; split; reflexivity.
Qed.

Lemma rejectBadHeaders_looks_at_two_headers_witness :
  rejectBadHeaders via_proxy fresh_response answer
  = answer via_proxy fresh_response /\
  rejectBadHeaders
    {| headers := ∅; url := "/graphql"; body := "{}" |} fresh_response answer
  = {| statusCode := 200; sent := Some "{}" |}.
Proof.
  destruct (rejectBadHeaders_looks_at_two_headers
              via_proxy {| headers := ∅; url := "/graphql"; body := "{}" |}
              fresh_response answer eq_refl eq_refl) as [[H _]|[H1 H2]].
  - vm_compute in H. discriminate.
  - split; [exact H1 | exact H2].
Defined.

(** ** Declared fields have resolvers *)

(** X18: every field [customSchema] declares is a non-null [BigDecimal]
    and has a registration under the type it extends, whose fragment is on
    that type and selects [id]. *)
Theorem declared_fields_are_registered (ext : extension) (d : field_decl) :
  In ext customSchema -> In d (fields_of ext) ->
  type_name d = "BigDecimal" /\ non_null d = true /\
  exists r,
    registration_of (extended ext) (field_name d) = Some r /\
    on_type (reg_fragment r) = extended ext /\
    selects ["id"] (selection_set (reg_fragment r)) = true.
Proof.
  intros He Hd. simpl in He.
  repeat (destruct He as [<-|He];
          [simpl in Hd;
           repeat (destruct Hd as [<-|Hd];
                   [repeat split; eexists; repeat split; reflexivity|]);
           destruct Hd|]).
  destruct He.
Qed.

Lemma declared_fields_are_registered_witness :
  In (Extend "Account"
        [Decl "totalBorrowValueInEth" "BigDecimal" true;
         Decl "totalCollateralValueInEth" "BigDecimal" true]) customSchema /\
  exists r,
    registration_of "Account" "totalCollateralValueInEth" = Some r /\
    on_type (reg_fragment r) = "Account" /\
    selects ["id"] (selection_set (reg_fragment r)) = true.
Proof.
  assert (H : In (Extend "Account"
        [Decl "totalBorrowValueInEth" "BigDecimal" true;
         Decl "totalCollateralValueInEth" "BigDecimal" true]) customSchema).
  { left. reflexivity. }
  split; [exact H|].
  apply (declared_fields_are_registered _
           (Decl "totalCollateralValueInEth" "BigDecimal" true) H).
  right. left. reflexivity.
Defined.

(** ** An account that is not flagged as a borrower *)

(** X19: on an object whose [hasBorrowed] is false, missing, [null] or
    empty, [totalBorrowValueInEth] returns a fresh 0 and the [health]
    resolver returns [null], without reading the positions and without any
    arithmetic. *)
Theorem unflagged_account_short_circuits
        (fields : list (string * jsval)) (st : store) :
  truthy (lookup_field "hasBorrowed" fields) = false ->
  totalBorrowValueInEth (JObj fields) st
  = (Ok (Obj (next_ref st) Dec.zero), Store (S (next_ref st)) (calls st)) /\
  Resolve.health (JObj fields) st = (Ok JNull, st).
Proof.
  intros H. unfold Resolve.health, totalBorrowValueInEth.
  rewrite !(bind_ok _ _ _ _ _ (get_obj _ _ _)), H. split; reflexivity.
Qed.

Lemma unflagged_account_short_circuits_witness :
  truthy JUndefined = false /\
  totalBorrowValueInEth flagless store0 = (Ok (Obj 0 Dec.zero), Store 1 []) /\
  Resolve.health flagless store0 = (Ok JNull, store0).
Proof.
  split; [reflexivity|].
  apply (unflagged_account_short_circuits
           [("id", JStr "0xg"); ("___tokens", JStr "n/a")] store0).
  reflexivity.
Defined.

